(** * The input-event bridge header [Rust.h] of app_window

    [SwiftAppWindow/Sources/SwiftAppWindowC/include/Rust.h] is a C header of
    six [extern] prototypes through which the Swift side of app_window hands
    raw keyboard and mouse events to the Rust side.  The header has no
    function bodies: what there is to verify is the interface itself.

    The development embeds the header twice and ties the two together:
    - [Rust_h_lines] is the text of the file, line by line;
    - [Rust_h] is the list of prototypes as abstract syntax,
    and [parse_header Rust_h_lines = Some Rust_h] is proved by evaluation.
    Every statement about the interface is then a statement about [Rust_h]. *)

From Stdlib Require Import List String Ascii ZArith Bool PrimFloat.
Import ListNotations.
Open Scope string_scope.

(** ** C types and prototypes *)

Inductive signedness : Type := Signed | Unsigned.

(** The types that can be written in a parameter list of the header.
    [Tnamed] is a name the header does not define itself ([uint16_t],
    [uint8_t] and [bool] come from the two included headers);
    [Tconst t] is [t] with a [const] qualifier, so that [const void *] is
    [Tpointer (Tconst Tvoid)]. *)
Inductive ctype : Type :=
| Tvoid
| Tdouble
| Tbool
| Tint (sg : signedness) (bits : Z)
| Tnamed (name : string)
| Tconst (t : ctype)
| Tpointer (t : ctype).

Record param : Type := mkparam { ptype : ctype; pname : string }.

Record fundecl : Type := mkfundecl {
  fextern : bool;
  fret : ctype;
  fname : string;
  fparams : list param
}.

(** ** The header, as text *)

(** Lines 1 to 16 of [Rust.h]. *)
Definition Rust_h_lines : list string := [
  "// SPDX-License-Identifier: MPL-2.0";
  "//";
  "//  Rust.h";
  "//  SwiftRawInput";
  "//";
  "//  Created by Drew Crawford on 12/16/24.";
  "//";
  "#include <stdbool.h>";
  "#include <stdint.h>";
  "";
  "extern void raw_input_finish_key_event_context(const void* context);";
  "extern void raw_input_finish_mouse_event_context(const void* context);";
  "extern void raw_input_key_notify_func(const void *context, void *window, uint16_t keyCode, bool pressed);";
  "extern void raw_input_mouse_move(const void *context, void *window, double windowPosX, double windowPosY, double windowWidth, double windowHeight);";
  "extern void raw_input_mouse_button(const void *context, void *window, uint8_t button, bool down);";
  "extern void raw_input_mouse_scroll(const void *context, void *window, double deltaX, double deltaY);"
].

(** ** The header, as abstract syntax *)

Definition const_void_ptr : ctype := Tpointer (Tconst Tvoid).
Definition void_ptr : ctype := Tpointer Tvoid.
Definition uint16_t : ctype := Tnamed "uint16_t".
Definition uint8_t : ctype := Tnamed "uint8_t".
Definition bool_t : ctype := Tnamed "bool".

Definition raw_input_finish_key_event_context : fundecl :=
  mkfundecl true Tvoid "raw_input_finish_key_event_context"
    [mkparam const_void_ptr "context"].

Definition raw_input_finish_mouse_event_context : fundecl :=
  mkfundecl true Tvoid "raw_input_finish_mouse_event_context"
    [mkparam const_void_ptr "context"].

Definition raw_input_key_notify_func : fundecl :=
  mkfundecl true Tvoid "raw_input_key_notify_func"
    [mkparam const_void_ptr "context"; mkparam void_ptr "window";
     mkparam uint16_t "keyCode"; mkparam bool_t "pressed"].

Definition raw_input_mouse_move : fundecl :=
  mkfundecl true Tvoid "raw_input_mouse_move"
    [mkparam const_void_ptr "context"; mkparam void_ptr "window";
     mkparam Tdouble "windowPosX"; mkparam Tdouble "windowPosY";
     mkparam Tdouble "windowWidth"; mkparam Tdouble "windowHeight"].

Definition raw_input_mouse_button : fundecl :=
  mkfundecl true Tvoid "raw_input_mouse_button"
    [mkparam const_void_ptr "context"; mkparam void_ptr "window";
     mkparam uint8_t "button"; mkparam bool_t "down"].

Definition raw_input_mouse_scroll : fundecl :=
  mkfundecl true Tvoid "raw_input_mouse_scroll"
    [mkparam const_void_ptr "context"; mkparam void_ptr "window";
     mkparam Tdouble "deltaX"; mkparam Tdouble "deltaY"].

Definition Rust_h : list fundecl := [
  raw_input_finish_key_event_context;
  raw_input_finish_mouse_event_context;
  raw_input_key_notify_func;
  raw_input_mouse_move;
  raw_input_mouse_button;
  raw_input_mouse_scroll
].

(** ** Reading prototypes from the text

    A lexer and a parser for the part of C the header is written in: line
    comments, preprocessor lines, and prototypes whose types are a name,
    [const] or not, followed by any number of [*]. *)

Module Lexer.

Inductive token : Type :=
| TIdent (s : string)
| TStar
| TLParen
| TRParen
| TComma
| TSemi.

Definition is_ident_char (c : ascii) : bool :=
  let n := nat_of_ascii c in
  ((97 <=? n) && (n <=? 122))%nat     (* a-z *)
  || ((65 <=? n) && (n <=? 90))%nat   (* A-Z *)
  || ((48 <=? n) && (n <=? 57))%nat   (* 0-9 *)
  || (n =? 95)%nat.                   (* _ *)

Definition is_blank (c : ascii) : bool :=
  let n := nat_of_ascii c in (n =? 32)%nat || (n =? 9)%nat.

Definition punct (c : ascii) : option token :=
  match c with
  | "*"%char => Some TStar
  | "("%char => Some TLParen
  | ")"%char => Some TRParen
  | ","%char => Some TComma
  | ";"%char => Some TSemi
  | _ => None
  end.

(** [flush w] closes the identifier read so far, kept reversed in [w]. *)
Definition flush (w : list ascii) : list token :=
  match w with
  | [] => []
  | _ => [TIdent (string_of_list_ascii (rev w))]
  end.

(** One pass over a line; [None] on a character no prototype contains. *)
Fixpoint lex_chars (s : string) (w : list ascii) : option (list token) :=
  match s with
  | EmptyString => Some (flush w)
  | String c s' =>
      if is_ident_char c then lex_chars s' (c :: w)
      else if is_blank c then option_map (app (flush w)) (lex_chars s' [])
      else match punct c with
           | Some t => option_map (fun ts => (flush w ++ t :: ts)%list) (lex_chars s' [])
           | None => None
           end
  end.

(** Comment lines, preprocessor lines and empty lines carry no tokens. *)
Definition skipped_line (l : string) : bool :=
  String.prefix "//" l || String.prefix "#" l || String.eqb l "".

Fixpoint lex_lines (ls : list string) : option (list token) :=
  match ls with
  | [] => Some []
  | l :: ls' =>
      if skipped_line l then lex_lines ls'
      else match lex_chars l [], lex_lines ls' with
           | Some a, Some b => Some (a ++ b)%list
           | _, _ => None
           end
  end.

End Lexer.

Module Parser.
Import Lexer.

Definition base_type (s : string) : ctype :=
  if String.eqb s "void" then Tvoid
  else if String.eqb s "double" then Tdouble
  else Tnamed s.

Fixpoint stars (t : ctype) (ts : list token) : ctype * list token :=
  match ts with
  | TStar :: ts' => stars (Tpointer t) ts'
  | _ => (t, ts)
  end.

Definition parse_type (ts : list token) : option (ctype * list token) :=
  match ts with
  | TIdent c :: TIdent b :: ts' =>
      if String.eqb c "const" then Some (stars (Tconst (base_type b)) ts')
      else Some (stars (base_type c) (TIdent b :: ts'))
  | TIdent b :: ts' => Some (stars (base_type b) ts')
  | _ => None
  end.

(** Parameters up to and including the closing parenthesis. *)
Fixpoint parse_params (fuel : nat) (ts : list token)
  : option (list param * list token) :=
  match fuel with
  | O => None
  | S fuel' =>
      match parse_type ts with
      | Some (t, TIdent x :: TComma :: ts') =>
          match parse_params fuel' ts' with
          | Some (ps, rest) => Some (mkparam t x :: ps, rest)
          | None => None
          end
      | Some (t, TIdent x :: TRParen :: ts') => Some ([mkparam t x], ts')
      | _ => None
      end
  end.

Definition parse_decl (ts : list token) : option (fundecl * list token) :=
  let (ext, ts1) :=
    match ts with
    | TIdent "extern" :: r => (true, r)
    | _ => (false, ts)
    end in
  match parse_type ts1 with
  | Some (rt, TIdent f :: TLParen :: ts2) =>
      match parse_params (List.length ts2) ts2 with
      | Some (ps, TSemi :: rest) => Some (mkfundecl ext rt f ps, rest)
      | _ => None
      end
  | _ => None
  end.

Fixpoint parse_decls (fuel : nat) (ts : list token) : option (list fundecl) :=
  match ts with
  | [] => Some []
  | _ =>
      match fuel with
      | O => None
      | S fuel' =>
          match parse_decl ts with
          | Some (d, rest) => option_map (cons d) (parse_decls fuel' rest)
          | None => None
          end
      end
  end.

Definition parse_header (ls : list string) : option (list fundecl) :=
  match lex_lines ls with
  | Some ts => parse_decls (List.length ts) ts
  | None => None
  end.

End Parser.

(** ** Names and types the header takes from its includes *)

(** Modelled from the spec: [<stdbool.h>] and [<stdint.h>] are not part of
    the sources; the three names the header takes from them are given the
    meaning the specification states for them ([uint16]: 16-bit unsigned,
    [uint8]: 8-bit unsigned, [bool]: boolean). *)
Definition included_types : list (string * ctype) := [
  ("bool", Tbool);
  ("uint8_t", Tint Unsigned 8);
  ("uint16_t", Tint Unsigned 16)
].

Fixpoint lookup_type (n : string) (env : list (string * ctype)) : option ctype :=
  match env with
  | [] => None
  | (k, t) :: env' => if String.eqb n k then Some t else lookup_type n env'
  end.

(** [resolve t] replaces the included names in [t] by what they stand for. *)
Fixpoint resolve (t : ctype) : option ctype :=
  match t with
  | Tnamed n => lookup_type n included_types
  | Tconst t' => option_map Tconst (resolve t')
  | Tpointer t' => option_map Tpointer (resolve t')
  | _ => Some t
  end.

Fixpoint resolve_all (ts : list ctype) : option (list ctype) :=
  match ts with
  | [] => Some []
  | t :: ts' =>
      match resolve t, resolve_all ts' with
      | Some r, Some rs => Some (r :: rs)
      | _, _ => None
      end
  end.

Definition param_types (d : fundecl) : list ctype := map ptype (fparams d).

(** The parameter of a prototype that has a given name. *)
Definition find_param (x : string) (d : fundecl) : option param :=
  find (fun p => String.eqb (pname p) x) (fparams d).

Definition find_decl (f : string) (h : list fundecl) : option fundecl :=
  find (fun d => String.eqb (fname d) f) h.

(** What follows the two leading parameters of a notify function. *)
Definition payload (d : fundecl) : list param := skipn 2 (fparams d).

(** A pointer type lets the callee write through it unless the pointee is
    [const]. *)
Definition writable_through (t : ctype) : bool :=
  match t with
  | Tpointer (Tconst _) => false
  | Tpointer _ => true
  | _ => false
  end.

Definition is_pointer (t : ctype) : bool :=
  match t with Tpointer _ => true | _ => false end.

(** ** The six operations *)

Inductive channel : Type := KeyChannel | MouseChannel.
Inductive event_kind : Type := Key | MouseMove | MouseButton | MouseScroll.
Inductive operation : Type :=
| Finish (ch : channel)
| Notify (k : event_kind).

(** [strip_prefix p s] is [Some r] when [s] is [p] followed by [r]. *)
Fixpoint strip_prefix (p s : string) : option string :=
  match p, s with
  | EmptyString, _ => Some s
  | String a p', String b s' =>
      if Ascii.eqb a b then strip_prefix p' s' else None
  | _, _ => None
  end.

(** Every symbol of the header is [raw_input_] followed by a stem that says
    what the function is for. *)
Definition symbol_prefix : string := "raw_input_".

Definition stem (d : fundecl) : option string :=
  strip_prefix symbol_prefix (fname d).

Definition classify (d : fundecl) : option operation :=
  match stem d with
  | Some s =>
      if String.prefix "finish_key_event" s then Some (Finish KeyChannel)
      else if String.prefix "finish_mouse_event" s then Some (Finish MouseChannel)
      else if String.prefix "key_notify" s then Some (Notify Key)
      else if String.prefix "mouse_move" s then Some (Notify MouseMove)
      else if String.prefix "mouse_button" s then Some (Notify MouseButton)
      else if String.prefix "mouse_scroll" s then Some (Notify MouseScroll)
      else None
  | None => None
  end.

Definition is_finish (d : fundecl) : bool :=
  match classify d with Some (Finish _) => true | _ => false end.

Definition is_notify (d : fundecl) : bool :=
  match classify d with Some (Notify _) => true | _ => false end.

Definition finish_functions : list fundecl := filter is_finish Rust_h.
Definition notify_functions : list fundecl := filter is_notify Rust_h.

(** ** Values and calls *)

(** A pointer crosses the boundary as an address and nothing else. *)
Definition address : Type := Z.

Inductive cvalue : Type :=
| Vptr (a : address)
| Vint (n : Z)
| Vbool (b : bool)
| Vdouble (f : float).

(** [has_type v t]: [v] can be passed where a [t] is expected.  No value
    has type [void]. *)
Fixpoint has_type (v : cvalue) (t : ctype) : bool :=
  match t with
  | Tconst t' => has_type v t'
  | Tpointer _ => match v with Vptr _ => true | _ => false end
  | Tint Unsigned w =>
      match v with Vint n => (0 <=? n)%Z && (n <? 2 ^ w)%Z | _ => false end
  | Tint Signed w =>
      match v with
      | Vint n => (- 2 ^ (w - 1) <=? n)%Z && (n <? 2 ^ (w - 1))%Z
      | _ => false
      end
  | Tbool => match v with Vbool _ => true | _ => false end
  | Tdouble => match v with Vdouble _ => true | _ => false end
  | Tvoid | Tnamed _ => false
  end.

Fixpoint have_types (vs : list cvalue) (ts : list ctype) : bool :=
  match vs, ts with
  | [], [] => true
  | v :: vs', t :: ts' => has_type v t && have_types vs' ts'
  | _, _ => false
  end.

(** The arguments fit the prototype: as many as parameters, each of the
    parameter's type. *)
Definition well_typed_call (d : fundecl) (args : list cvalue) : bool :=
  match resolve_all (param_types d) with
  | Some ts => have_types args ts
  | None => false
  end.

(** What a call can give back to its caller through its return type. *)
Definition can_return (d : fundecl) (v : cvalue) : bool :=
  match resolve (fret d) with
  | Some t => has_type v t
  | None => false
  end.

(** ** The include lines *)

(** [before_closing s] is [Some h] when [s] is [h] followed by a closing
    angle bracket and nothing more. *)
Fixpoint before_closing (s : string) : option string :=
  match s with
  | EmptyString => None
  | String c s' =>
      if Ascii.eqb c ">"%char
      then if String.eqb s' "" then Some "" else None
      else option_map (String c) (before_closing s')
  end.

(** The header a line includes, when the line is an include line. *)
Definition include_of (l : string) : option string :=
  match strip_prefix "#include <" l with
  | Some r => before_closing r
  | None => None
  end.

Definition included_headers (ls : list string) : list string :=
  flat_map (fun l => match include_of l with Some h => [h] | None => [] end) ls.

(** The names a type takes from elsewhere. *)
Fixpoint named_in (t : ctype) : list string :=
  match t with
  | Tnamed n => [n]
  | Tconst t' | Tpointer t' => named_in t'
  | Tvoid | Tdouble | Tbool | Tint _ _ => []
  end.

Definition names_used (d : fundecl) : list string :=
  (named_in (fret d) ++ flat_map named_in (param_types d))%list.

(** Modelled from the spec: the two standard headers are not part of the
    sources; of what they declare, only the three names the specification
    gives a meaning to are listed ([bool] in [<stdbool.h>], the two
    exact-width integer types in [<stdint.h>]). *)
Definition standard_provides (h n : string) : bool :=
  (String.eqb h "stdbool.h" && String.eqb n "bool")
  || (String.eqb h "stdint.h"
      && (String.eqb n "uint8_t" || String.eqb n "uint16_t")).

(** ** Shapes of argument lists *)

Definition is_scalar (v : cvalue) : bool :=
  match v with Vptr _ => false | _ => true end.

(** ** The signature list of the specification *)

(** The specification writes types abstractly.  [abstract_of] reads a C type
    of the header that way: a pointer to [void], [const] or not, is an opaque
    pointer, and an integer type is known by its signedness and width. *)
Inductive abstract_type : Type :=
| OpaquePointer
| UInt16
| UInt8
| Bool
| Float64
| Void.

Fixpoint abstract_of (t : ctype) : option abstract_type :=
  match t with
  | Tvoid => Some Void
  | Tdouble => Some Float64
  | Tbool => Some Bool
  | Tint Unsigned w =>
      if (w =? 8)%Z then Some UInt8
      else if (w =? 16)%Z then Some UInt16
      else None
  | Tint Signed _ => None
  | Tnamed _ => None
  | Tconst t' => abstract_of t'
  | Tpointer Tvoid | Tpointer (Tconst Tvoid) => Some OpaquePointer
  | Tpointer _ => None
  end.

Definition abstract_type_of (t : ctype) : option abstract_type :=
  match resolve t with
  | Some r => abstract_of r
  | None => None
  end.

(** Width in bits of the primitive (non-pointer) types. *)
Definition width (a : abstract_type) : option Z :=
  match a with
  | UInt8 => Some 8%Z
  | UInt16 => Some 16%Z
  | Float64 => Some 64%Z
  | OpaquePointer | Bool | Void => None
  end.

Record signature : Type := mksignature {
  sname : string;
  sparams : list (string * abstract_type);
  sret : abstract_type
}.

(** The six signatures as the specification lists them, names included.
    This definition follows the specification, not the header; the two are
    compared below. *)
Definition spec_signatures : list signature := [
  mksignature "finish_key_event_context" [("context", OpaquePointer)] Void;
  mksignature "finish_mouse_event_context" [("context", OpaquePointer)] Void;
  mksignature "key_notify"
    [("context", OpaquePointer); ("window", OpaquePointer);
     ("keyCode", UInt16); ("pressed", Bool)] Void;
  mksignature "mouse_move"
    [("context", OpaquePointer); ("window", OpaquePointer);
     ("posX", Float64); ("posY", Float64);
     ("width", Float64); ("height", Float64)] Void;
  mksignature "mouse_button"
    [("context", OpaquePointer); ("window", OpaquePointer);
     ("button", UInt8); ("down", Bool)] Void;
  mksignature "mouse_scroll"
    [("context", OpaquePointer); ("window", OpaquePointer);
     ("deltaX", Float64); ("deltaY", Float64)] Void
].

(** A prototype agrees with a signature on types: same number of
    parameters, the same abstract type at each position, the same result. *)
Definition same_types (d : fundecl) (s : signature) : Prop :=
  map abstract_type_of (param_types d) = map (fun p => Some (snd p)) (sparams s)
  /\ abstract_type_of (fret d) = Some (sret s).

(** A prototype is a signature of the list as it stands there: the declared
    name is the listed name, and the types agree. *)
Definition declared_as_listed (d : fundecl) (s : signature) : Prop :=
  fname d = sname s /\ same_types d s.

(** The symbol the header declares for a listed name: the prefix
    [raw_input_] in front, and [_func] behind the key notify function. *)
Definition exported_symbol (n : string) : string :=
  symbol_prefix ++ n ++ (if String.eqb n "key_notify" then "_func" else "").

Definition declared_with_prefix (d : fundecl) (s : signature) : Prop :=
  fname d = exported_symbol (sname s) /\ same_types d s.

(** The widths of the parameters of a prototype, in order ([None] at a
    pointer or a boolean). *)
Definition param_widths (d : fundecl) : list (option Z) :=
  map (fun t => match abstract_type_of t with
                | Some a => width a
                | None => None
                end) (param_types d).

(** The name under which the header declares a listed parameter.  The
    header uses the listed names, with one difference: the four payload
    parameters of the mouse move function, listed as [posX], [posY],
    [width] and [height], are declared as [windowPosX], [windowPosY],
    [windowWidth] and [windowHeight]. *)
Definition upper (c : ascii) : ascii :=
  let n := nat_of_ascii c in
  if ((97 <=? n) && (n <=? 122))%nat then ascii_of_nat (n - 32) else c.

Definition capitalise (s : string) : string :=
  match s with
  | EmptyString => EmptyString
  | String c r => String (upper c) r
  end.

Definition declared_parameter (f n : string) : string :=
  if String.eqb f "mouse_move"
     && negb (String.eqb n "context" || String.eqb n "window")
  then "window" ++ capitalise n
  else n.

(** The parameters of a prototype as name and abstract type, in the order
    of declaration, and those of a signature as the header is to declare
    them, in the order of the list. *)
Definition declared_parameters (d : fundecl) : list (string * option abstract_type) :=
  map (fun p => (pname p, abstract_type_of (ptype p))) (fparams d).

Definition listed_parameters (s : signature) : list (string * option abstract_type) :=
  map (fun q => (declared_parameter (sname s) (fst q), Some (snd q))) (sparams s).

(** A prototype declares a signature of the list in the stated argument
    order: parameter by parameter, the same name and the same type. *)
Definition declared_in_listed_order (d : fundecl) (s : signature) : Prop :=
  fname d = exported_symbol (sname s)
  /\ declared_parameters d = listed_parameters s
  /\ abstract_type_of (fret d) = Some (sret s).

(** ** The producer *)

Module Producer.

(** Modelled from the spec: the event payloads of the data model (section 3);
    the Swift sources that build them are not part of the sources. *)
Inductive input_event : Type :=
| KeyEvent (keyCode : Z) (pressed : bool)
| MouseMoveEvent (windowPosX windowPosY windowWidth windowHeight : float)
| MouseButtonEvent (button : Z) (down : bool)
| MouseScrollEvent (deltaX deltaY : float).

(** Modelled from the spec: a native input event as the producer observes
    it, for the listener [ev_context] and the window [ev_window]. *)
Record native_event : Type := mkevent {
  ev_context : address;
  ev_window : address;
  ev_payload : input_event
}.

(** A call across the boundary: the symbol called and the arguments. *)
Record call : Type := mkcall { callee : string; cargs : list cvalue }.

(** Modelled from the spec: the producer, which is not part of the sources.
    For each native event it invokes one of the notify functions of the
    header, passing the context pointer, the window handle and the payload,
    which it does not interpret. *)
Definition notify (e : native_event) : call :=
  let c := Vptr (ev_context e) in
  let w := Vptr (ev_window e) in
  match ev_payload e with
  | KeyEvent keyCode pressed =>
      mkcall (fname raw_input_key_notify_func)
        [c; w; Vint keyCode; Vbool pressed]
  | MouseMoveEvent x y width height =>
      mkcall (fname raw_input_mouse_move)
        [c; w; Vdouble x; Vdouble y; Vdouble width; Vdouble height]
  | MouseButtonEvent button down =>
      mkcall (fname raw_input_mouse_button)
        [c; w; Vint button; Vbool down]
  | MouseScrollEvent dx dy =>
      mkcall (fname raw_input_mouse_scroll)
        [c; w; Vdouble dx; Vdouble dy]
  end.

(** The source of an event or of a call: its context/window pair. *)
Definition from_source (c w : address) (e : native_event) : bool :=
  (ev_context e =? c)%Z && (ev_window e =? w)%Z.

Definition to_source (c w : address) (k : call) : bool :=
  match cargs k with
  | Vptr c' :: Vptr w' :: _ => (c' =? c)%Z && (w' =? w)%Z
  | _ => false
  end.

Definition events_for (c w : address) (es : list native_event) : list native_event :=
  filter (from_source c w) es.

Definition calls_for (c w : address) (t : list call) : list call :=
  filter (to_source c w) t.

Definition thread : Type := nat.

(** What each native thread has still to deliver. *)
Definition queues : Type := thread -> list call.

Definition dequeue (q : queues) (i : thread) (rest : list call) : queues :=
  fun j => if Nat.eqb j i then rest else q j.

(** Modelled from the spec: the order in which calls reach the consumer
    (section 5).  Each call is synchronous and is made on the producer's
    native thread; several threads may call concurrently, so the calls the
    consumer sees are those of the threads, each thread's in its own order,
    interleaved in any way. *)
Inductive schedule : queues -> list call -> Prop :=
| sched_idle (q : queues) :
    (forall i, q i = []) -> schedule q []
| sched_call (q : queues) (i : thread) (k : call) (rest t : list call) :
    q i = k :: rest -> schedule (dequeue q i rest) t -> schedule q (k :: t).

Section Threads.

(** Modelled from the spec: the native thread that delivers the events of a
    window ("multiple native threads for different windows"). *)
Variable thread_of : address -> thread.

Definition observed_on (i : thread) (es : list native_event) : list native_event :=
  filter (fun e => Nat.eqb (thread_of (ev_window e)) i) es.

(** Modelled from the spec: a thread notifies the consumer of the events it
    observes one by one, in the order it observes them. *)
Definition delivered_by (es : list native_event) : queues :=
  fun i => map notify (observed_on i es).

(** [trace] is a sequence of calls the consumer can see when the producer
    observes [es], in that order. *)
Definition delivers (es : list native_event) (trace : list call) : Prop :=
  schedule (delivered_by es) trace.

End Threads.

(** *** A session with two windows

    Window 100 is served by thread 0 and every other window by thread 1.
    The producer observes a drag in window 100 (button down, move, button
    up) while a key is pressed and a scroll gesture without movement ends
    in window 200. *)
Definition two_threads (w : address) : thread :=
  if (w =? 100)%Z then 0%nat else 1%nat.

Definition button_down : native_event := mkevent 1%Z 100%Z (MouseButtonEvent 0%Z true).
Definition key_press : native_event := mkevent 1%Z 200%Z (KeyEvent 13%Z true).
Definition drag : native_event := mkevent 1%Z 100%Z (MouseMoveEvent 10.5%float 20%float 800%float 600%float).
Definition still_scroll : native_event := mkevent 1%Z 200%Z (MouseScrollEvent 0%float 0%float).
Definition button_up : native_event := mkevent 1%Z 100%Z (MouseButtonEvent 0%Z false).

Definition session : list native_event :=
  [button_down; key_press; drag; still_scroll; button_up].

(** Thread 1 happens to run first. *)
Definition session_trace : list call :=
  [notify key_press; notify button_down; notify drag;
   notify still_scroll; notify button_up].

End Producer.

(** * Properties of the header *)

(** The abstract syntax is what the text of the header says. *)
Lemma Rust_h_is_parsed_text : Parser.parse_header Rust_h_lines = Some Rust_h.
Proof. vm_compute. reflexivity. Qed.

(** Case analysis on a prototype known to be one of the header's. *)
Ltac each_decl H :=
  simpl in H;
  repeat (destruct H as [H | H]; [subst | ]);
  [ .. | contradiction H].

Lemma finish_functions_eq :
  finish_functions =
    [raw_input_finish_key_event_context; raw_input_finish_mouse_event_context].
Proof. reflexivity. Qed.

Lemma notify_functions_eq :
  notify_functions =
    [raw_input_key_notify_func; raw_input_mouse_move;
     raw_input_mouse_button; raw_input_mouse_scroll].
Proof. reflexivity. Qed.

(** C1: the header declares exactly six functions, none twice: the two
    context-release ("finish") functions, for the key and the mouse
    channel, and the four notify functions, for key, mouse move, mouse
    button and mouse scroll events.  Nothing else is declared: the six are
    all that the text of the header parses to. *)
Theorem header_declares_six_operations :
  Parser.parse_header Rust_h_lines = Some Rust_h
  /\ List.length Rust_h = 6%nat
  /\ NoDup (map fname Rust_h)
  /\ map classify Rust_h =
       [Some (Finish KeyChannel); Some (Finish MouseChannel);
        Some (Notify Key); Some (Notify MouseMove);
        Some (Notify MouseButton); Some (Notify MouseScroll)]
  /\ List.length finish_functions = 2%nat
  /\ List.length notify_functions = 4%nat
  /\ (forall d, In d Rust_h <-> In d finish_functions \/ In d notify_functions).
Proof.
  split; [exact Rust_h_is_parsed_text | ].
  split; [reflexivity | ].
  split.
  { simpl. repeat constructor; simpl; intuition discriminate. }
  split; [reflexivity | ].
  split; [reflexivity | ].
  split; [reflexivity | ].
  intro d. rewrite finish_functions_eq, notify_functions_eq.
  unfold Rust_h. simpl. tauto.
Qed.

(** ** Names, argument order and widths *)

(** The types of every prototype, read abstractly, in order. *)
Lemma abstract_signatures :
  map (fun d => (map abstract_type_of (param_types d), abstract_type_of (fret d))) Rust_h
  = map (fun s => (map (fun p => Some (snd p)) (sparams s), Some (sret s))) spec_signatures.
Proof. reflexivity. Qed.

(** C2, as stated, does not hold: the declared names are not the listed
    names.  The first prototype is [raw_input_finish_key_event_context],
    not [finish_key_event_context], so the header does not declare the six
    functions under the names of the signature list. *)
Lemma declared_names_are_not_the_listed_names :
  fname raw_input_finish_key_event_context <> "finish_key_event_context"
  /\ map fname Rust_h <> map sname spec_signatures
  /\ ~ Forall2 declared_as_listed Rust_h spec_signatures.
Proof.
  split; [discriminate | ].
  split; [discriminate | ].
  intro H. inversion H as [ | d s ds ss [Hname _] _ ]; subst.
  discriminate Hname.
Qed.

(** C2 (amended): every declared name is the listed name with the prefix
    [raw_input_] (and, for key notify, the suffix [_func]); the prototypes
    come in the order of the list, and each declares the listed parameters
    in the stated order: at every position the parameter has the listed
    name, type and width (the payload of mouse move, listed as [posX],
    [posY], [width], [height], being declared as [windowPosX],
    [windowPosY], [windowWidth], [windowHeight]), and the result is the
    listed one. *)
Theorem declared_names_carry_prefix :
  Forall2 declared_with_prefix Rust_h spec_signatures
  /\ Forall2 declared_in_listed_order Rust_h spec_signatures
  /\ map (fun d => map pname (fparams d)) Rust_h =
       [["context"];
        ["context"];
        ["context"; "window"; "keyCode"; "pressed"];
        ["context"; "window"; "windowPosX"; "windowPosY";
         "windowWidth"; "windowHeight"];
        ["context"; "window"; "button"; "down"];
        ["context"; "window"; "deltaX"; "deltaY"]]
  /\ map fname Rust_h =
       ["raw_input_finish_key_event_context";
        "raw_input_finish_mouse_event_context";
        "raw_input_key_notify_func";
        "raw_input_mouse_move";
        "raw_input_mouse_button";
        "raw_input_mouse_scroll"]
  /\ map param_widths Rust_h =
       map (fun s => map (fun p => width (snd p)) (sparams s)) spec_signatures.
Proof.
  split.
  { repeat constructor. }
  split.
  { repeat constructor. }
  split; [reflexivity | ].
  split; reflexivity.
Qed.

(** ** Results *)

(** C3: every one of the six operations has result type [void]; no value
    has that type, so no call can hand an error or result code back to
    its caller. *)
Theorem every_operation_returns_void :
  forall d, In d Rust_h ->
    fret d = Tvoid /\ (forall v, can_return d v = false).
Proof.
  intros d H. each_decl H; (split; [reflexivity | intros []; reflexivity]).
Qed.

(** C3 at the mouse scroll function. *)
Lemma every_operation_returns_void_witness :
  In raw_input_mouse_scroll Rust_h
  /\ fret raw_input_mouse_scroll = Tvoid
  /\ can_return raw_input_mouse_scroll (Vint 0%Z) = false.
Proof.
  assert (H : In raw_input_mouse_scroll Rust_h) by (simpl; tauto).
  split; [exact H | ].
  destruct (every_operation_returns_void raw_input_mouse_scroll H) as [Hret Hval].
  split; [exact Hret | exact (Hval (Vint 0%Z))].
Defined.

(** ** Payloads *)

(** What the values of each type are. *)
Lemma has_type_pointer_inv (v : cvalue) (t : ctype) :
  has_type v (Tpointer t) = true -> exists a, v = Vptr a.
Proof. destruct v; simpl; try discriminate. eauto. Qed.

Lemma has_type_uint_inv (v : cvalue) (w : Z) :
  has_type v (Tint Unsigned w) = true ->
  exists n, v = Vint n /\ (0 <= n < 2 ^ w)%Z.
Proof.
  destruct v; simpl; try discriminate.
  rewrite andb_true_iff, Z.leb_le, Z.ltb_lt. eauto.
Qed.

Lemma has_type_bool_inv (v : cvalue) :
  has_type v Tbool = true -> exists b, v = Vbool b.
Proof. destruct v; simpl; try discriminate. eauto. Qed.

Lemma has_type_double_inv (v : cvalue) :
  has_type v Tdouble = true -> exists f, v = Vdouble f.
Proof. destruct v; simpl; try discriminate. eauto. Qed.

Lemma has_type_uint_intro (n w : Z) :
  (0 <= n < 2 ^ w)%Z -> has_type (Vint n) (Tint Unsigned w) = true.
Proof.
  intro H. simpl. rewrite andb_true_iff, Z.leb_le, Z.ltb_lt. exact H.
Qed.

Lemma have_types_cons_inv (vs : list cvalue) (t : ctype) (ts : list ctype) :
  have_types vs (t :: ts) = true ->
  exists v vs', vs = v :: vs' /\ has_type v t = true /\ have_types vs' ts = true.
Proof.
  destruct vs as [ | v vs']; simpl; [discriminate | ].
  rewrite andb_true_iff. eauto.
Qed.

Lemma have_types_nil_inv (vs : list cvalue) :
  have_types vs [] = true -> vs = [].
Proof. destruct vs; simpl; [reflexivity | discriminate]. Qed.

(** Taking apart a well-typed argument list, one parameter at a time. *)
Ltac split_args H :=
  repeat match type of H with
    | have_types _ (_ :: _) = true =>
        let v := fresh "v" in
        let Hv := fresh "Hv" in
        apply have_types_cons_inv in H;
        destruct H as (v & ? & -> & Hv & H);
        first
          [ apply has_type_pointer_inv in Hv; destruct Hv as (? & ->)
          | apply has_type_uint_inv in Hv; destruct Hv as (? & -> & Hv)
          | apply has_type_bool_inv in Hv; destruct Hv as (? & ->)
          | apply has_type_double_inv in Hv; destruct Hv as (? & ->) ]
    | have_types _ [] = true =>
        apply have_types_nil_inv in H; subst
    end.

(** C4: the key notify function takes, after the context and the window,
    a [uint16_t] named [keyCode] and then a [bool] named [pressed], and
    nothing more; [uint16_t] is the 16-bit unsigned integer type.  So the
    well-typed calls are exactly those with a context, a window, a key code
    between 0 and 65535 and a boolean, in that order. *)
Theorem key_notify_payload :
  find_decl "raw_input_key_notify_func" Rust_h = Some raw_input_key_notify_func
  /\ fparams raw_input_key_notify_func =
       [mkparam const_void_ptr "context"; mkparam void_ptr "window";
        mkparam uint16_t "keyCode"; mkparam bool_t "pressed"]
  /\ payload raw_input_key_notify_func =
       [mkparam uint16_t "keyCode"; mkparam bool_t "pressed"]
  /\ map resolve (map ptype (payload raw_input_key_notify_func)) =
       [Some (Tint Unsigned 16); Some Tbool]
  /\ map abstract_type_of (map ptype (payload raw_input_key_notify_func)) =
       [Some UInt16; Some Bool]
  /\ (forall args,
        well_typed_call raw_input_key_notify_func args = true <->
        exists c w keyCode pressed,
          args = [Vptr c; Vptr w; Vint keyCode; Vbool pressed]
          /\ (0 <= keyCode < 65536)%Z).
Proof.
  repeat (split; [reflexivity | ]).
  intro args. unfold well_typed_call.
  change (resolve_all (param_types raw_input_key_notify_func))
    with (Some [Tpointer (Tconst Tvoid); Tpointer Tvoid; Tint Unsigned 16; Tbool]).
  split.
  - intro H. split_args H. eauto 8.
  - intros (c & w & k & p & -> & Hk).
    cbn [have_types]. rewrite (has_type_uint_intro k 16 Hk). reflexivity.
Qed.

(** C6: the mouse button function takes, after the context and the window,
    a [uint8_t] named [button] and then a [bool] named [down], and nothing
    more; [uint8_t] is the 8-bit unsigned integer type.  So the well-typed
    calls are exactly those with a context, a window, a button number
    between 0 and 255 and a boolean, in that order. *)
Theorem mouse_button_payload :
  find_decl "raw_input_mouse_button" Rust_h = Some raw_input_mouse_button
  /\ fparams raw_input_mouse_button =
       [mkparam const_void_ptr "context"; mkparam void_ptr "window";
        mkparam uint8_t "button"; mkparam bool_t "down"]
  /\ payload raw_input_mouse_button =
       [mkparam uint8_t "button"; mkparam bool_t "down"]
  /\ map resolve (map ptype (payload raw_input_mouse_button)) =
       [Some (Tint Unsigned 8); Some Tbool]
  /\ map abstract_type_of (map ptype (payload raw_input_mouse_button)) =
       [Some UInt8; Some Bool]
  /\ (forall args,
        well_typed_call raw_input_mouse_button args = true <->
        exists c w button down,
          args = [Vptr c; Vptr w; Vint button; Vbool down]
          /\ (0 <= button < 256)%Z).
Proof.
  repeat (split; [reflexivity | ]).
  intro args. unfold well_typed_call.
  change (resolve_all (param_types raw_input_mouse_button))
    with (Some [Tpointer (Tconst Tvoid); Tpointer Tvoid; Tint Unsigned 8; Tbool]).
  split.
  - intro H. split_args H. eauto 8.
  - intros (c & w & b & p & -> & Hb).
    cbn [have_types]. rewrite (has_type_uint_intro b 8 Hb). reflexivity.
Qed.

(** C5: the mouse move function takes, after the context and the window,
    four [double]s: the cursor position [windowPosX], [windowPosY] and then
    the window size [windowWidth], [windowHeight].  Every well-typed call
    therefore carries a width and a height together with the position, and
    any four doubles are accepted. *)
Theorem mouse_move_carries_window_size :
  find_decl "raw_input_mouse_move" Rust_h = Some raw_input_mouse_move
  /\ payload raw_input_mouse_move =
       [mkparam Tdouble "windowPosX"; mkparam Tdouble "windowPosY";
        mkparam Tdouble "windowWidth"; mkparam Tdouble "windowHeight"]
  /\ map abstract_type_of (map ptype (payload raw_input_mouse_move)) =
       [Some Float64; Some Float64; Some Float64; Some Float64]
  /\ param_widths raw_input_mouse_move =
       [None; None; Some 64%Z; Some 64%Z; Some 64%Z; Some 64%Z]
  /\ (forall args,
        well_typed_call raw_input_mouse_move args = true <->
        exists c w x y width height,
          args = [Vptr c; Vptr w; Vdouble x; Vdouble y;
                  Vdouble width; Vdouble height]).
Proof.
  repeat (split; [reflexivity | ]).
  intro args. unfold well_typed_call.
  change (resolve_all (param_types raw_input_mouse_move))
    with (Some [Tpointer (Tconst Tvoid); Tpointer Tvoid;
                Tdouble; Tdouble; Tdouble; Tdouble]).
  split.
  - intro H. split_args H. eauto 10.
  - intros (c & w & x & y & wd & ht & ->). reflexivity.
Qed.

(** ** The two leading parameters *)

(** C8: each of the four notify functions takes the context pointer as its
    first parameter and the window handle as its second, both opaque
    pointers; the parameters after these two are the payload of the event,
    which is never empty and holds no pointer. *)
Theorem notify_takes_context_then_window :
  forall d, In d notify_functions ->
    fparams d =
      mkparam const_void_ptr "context" :: mkparam void_ptr "window" :: payload d
    /\ abstract_type_of const_void_ptr = Some OpaquePointer
    /\ abstract_type_of void_ptr = Some OpaquePointer
    /\ payload d <> []
    /\ forallb (fun p => negb (is_pointer (ptype p))) (payload d) = true.
Proof.
  intros d H. rewrite notify_functions_eq in H.
  each_decl H; repeat (split; [reflexivity | ]); (split; [discriminate | reflexivity]).
Qed.

(** C8 at the mouse button function. *)
Lemma notify_takes_context_then_window_witness :
  In raw_input_mouse_button notify_functions
  /\ fparams raw_input_mouse_button =
       [mkparam const_void_ptr "context"; mkparam void_ptr "window";
        mkparam uint8_t "button"; mkparam bool_t "down"].
Proof.
  assert (H : In raw_input_mouse_button notify_functions)
    by (rewrite notify_functions_eq; simpl; tauto).
  split; [exact H | ].
  exact (proj1 (notify_takes_context_then_window raw_input_mouse_button H)).
Defined.

(** ** Constness *)

(** C10: in each of the six prototypes the parameter named [context] is
    there, comes first and has type [const void *], through which the
    callee cannot write; a parameter named [window] is there exactly in the
    notify functions and has type [void *], which is not [const]. *)
Theorem context_is_const_window_is_not :
  forall d, In d Rust_h ->
    hd_error (fparams d) = Some (mkparam const_void_ptr "context")
    /\ (forall p, In p (fparams d) -> pname p = "context" ->
          ptype p = Tpointer (Tconst Tvoid)
          /\ writable_through (ptype p) = false)
    /\ (forall p, In p (fparams d) -> pname p = "window" ->
          ptype p = Tpointer Tvoid
          /\ writable_through (ptype p) = true)
    /\ (is_notify d = true <-> exists p, find_param "window" d = Some p).
Proof.
  intros d H.
  each_decl H;
    (split; [reflexivity | ]);
    (split; [intros p Hp Hn; each_decl Hp; solve [split; reflexivity | discriminate Hn] | ]);
    (split; [intros p Hp Hn; each_decl Hp; solve [split; reflexivity | discriminate Hn] | ]);
    (split; [ solve [ intros _; eexists; reflexivity | discriminate ]
            | solve [ reflexivity | intros [p Hp]; discriminate Hp ] ]).
Qed.

(** C10 at the key notify function. *)
Lemma context_is_const_window_is_not_witness :
  In raw_input_key_notify_func Rust_h
  /\ hd_error (fparams raw_input_key_notify_func)
     = Some (mkparam const_void_ptr "context")
  /\ writable_through (ptype (mkparam const_void_ptr "context")) = false
  /\ writable_through (ptype (mkparam void_ptr "window")) = true.
Proof.
  assert (H : In raw_input_key_notify_func Rust_h) by (simpl; tauto).
  destruct (context_is_const_window_is_not raw_input_key_notify_func H)
    as (Hhd & Hctx & Hwin & _).
  split; [exact H | ].
  split; [exact Hhd | ].
  split.
  - apply (Hctx (mkparam const_void_ptr "context")); [simpl; tauto | reflexivity].
  - apply (Hwin (mkparam void_ptr "window")); [simpl; tauto | reflexivity].
Defined.

(** * Properties of the delivery of events *)

Module ProducerFacts.
Import Producer.

(** The producer passes the source of an event on as the first two
    arguments of the call. *)
Lemma to_source_notify (c w : address) (e : native_event) :
  to_source c w (notify e) = from_source c w e.
Proof. destruct e as [c' w' []]; reflexivity. Qed.

Lemma calls_for_notify (c w : address) (es : list native_event) :
  calls_for c w (map notify es) = map notify (events_for c w es).
Proof.
  unfold calls_for, events_for.
  induction es as [ | e es IH]; simpl; [reflexivity | ].
  rewrite to_source_notify.
  destruct (from_source c w e); simpl; rewrite IH; reflexivity.
Qed.

Lemma dequeue_same (q : queues) (i : thread) (rest : list call) :
  dequeue q i rest i = rest.
Proof. unfold dequeue. rewrite Nat.eqb_refl. reflexivity. Qed.

Lemma dequeue_other (q : queues) (i j : thread) (rest : list call) :
  j <> i -> dequeue q i rest j = q j.
Proof.
  intro H. unfold dequeue.
  destruct (Nat.eqb_spec j i); [contradiction | reflexivity].
Qed.

(** A schedule depends on what the queues hold, not on how they are
    written. *)
Lemma schedule_ext (q : queues) (t : list call) :
  schedule q t -> forall q', (forall i, q' i = q i) -> schedule q' t.
Proof.
  induction 1 as [q Hq | q i k rest t Hi Hs IH]; intros q' E.
  - apply sched_idle. intro i. rewrite E. apply Hq.
  - apply sched_call with (i := i) (rest := rest).
    + rewrite E. exact Hi.
    + apply IH. intro j. unfold dequeue.
      destruct (Nat.eqb j i); [reflexivity | apply E].
Qed.

(** No call waiting in a queue is lost. *)
Lemma schedule_keeps_calls (q : queues) (t : list call) :
  schedule q t -> forall i k, In k (q i) -> In k t.
Proof.
  induction 1 as [q Hq | q i k rest t Hi Hs IH]; intros j k' Hin.
  - rewrite Hq in Hin. contradiction.
  - destruct (Nat.eq_dec j i) as [-> | Hne].
    + rewrite Hi in Hin. destruct Hin as [-> | Hin]; [left; reflexivity | ].
      right. apply (IH i). rewrite dequeue_same. exact Hin.
    + right. apply (IH j). rewrite dequeue_other by exact Hne. exact Hin.
Qed.

(** No call is made that was not waiting in a queue. *)
Lemma schedule_makes_no_other_call (q : queues) (t : list call) :
  schedule q t -> forall k, In k t -> exists i, In k (q i).
Proof.
  induction 1 as [q Hq | q i k rest t Hi Hs IH]; intros k' Hin.
  - contradiction.
  - destruct Hin as [<- | Hin].
    + exists i. rewrite Hi. left. reflexivity.
    + destruct (IH k' Hin) as [j Hj].
      destruct (Nat.eq_dec j i) as [-> | Hne].
      * exists i. rewrite Hi. right. rewrite dequeue_same in Hj. exact Hj.
      * exists j. rewrite dequeue_other in Hj by exact Hne. exact Hj.
Qed.

(** When the calls of a source all wait in one queue, the consumer sees
    them in the order of that queue. *)
Lemma schedule_source_order (q : queues) (t : list call) :
  schedule q t ->
  forall c w i0,
    (forall j, j <> i0 -> calls_for c w (q j) = []) ->
    calls_for c w t = calls_for c w (q i0).
Proof.
  induction 1 as [q Hq | q i k rest t Hi Hs IH]; intros c w i0 Hother.
  - rewrite Hq. reflexivity.
  - destruct (Nat.eq_dec i i0) as [-> | Hne].
    + rewrite Hi. unfold calls_for at 1 2. simpl.
      fold (calls_for c w t). fold (calls_for c w rest).
      rewrite (IH c w i0).
      * rewrite dequeue_same. reflexivity.
      * intros j Hj. rewrite dequeue_other by exact Hj. apply Hother, Hj.
    + assert (Hk : calls_for c w (k :: rest) = []).
      { rewrite <- Hi. apply Hother. exact Hne. }
      unfold calls_for in Hk. simpl in Hk.
      unfold calls_for at 1. simpl.
      destruct (to_source c w k); [discriminate Hk | ].
      fold (calls_for c w rest) in Hk. fold (calls_for c w t).
      rewrite (IH c w i0).
      * rewrite dequeue_other by auto. reflexivity.
      * intros j Hj. destruct (Nat.eq_dec j i) as [-> | Hji].
        -- rewrite dequeue_same. exact Hk.
        -- rewrite dequeue_other by exact Hji. apply Hother, Hj.
Qed.

Section Threads.

Variable thread_of : address -> thread.

(** The events of a source are all observed on the thread of its window. *)
Lemma events_for_observed_on (c w : address) (es : list native_event) :
  events_for c w (observed_on thread_of (thread_of w) es) = events_for c w es.
Proof.
  unfold events_for, observed_on.
  induction es as [ | e es IH]; simpl; [reflexivity | ].
  destruct (Nat.eqb_spec (thread_of (ev_window e)) (thread_of w)) as [E | N]; simpl.
  - rewrite IH. reflexivity.
  - rewrite IH.
    assert (Hf : from_source c w e = false).
    { unfold from_source. destruct (Z.eqb_spec (ev_window e) w) as [Ew | _].
      - contradiction N. rewrite Ew. reflexivity.
      - apply andb_false_r. }
    rewrite Hf. reflexivity.
Qed.

Lemma events_for_other_thread (c w : address) (j : thread) (es : list native_event) :
  j <> thread_of w -> events_for c w (observed_on thread_of j es) = [].
Proof.
  intro Hj. unfold events_for, observed_on.
  induction es as [ | e es IH]; simpl; [reflexivity | ].
  destruct (Nat.eqb_spec (thread_of (ev_window e)) j) as [E | N]; simpl.
  - assert (Hf : from_source c w e = false).
    { unfold from_source. destruct (Z.eqb_spec (ev_window e) w) as [Ew | _].
      - contradiction Hj. rewrite <- E, Ew. reflexivity.
      - apply andb_false_r. }
    rewrite Hf. exact IH.
  - exact IH.
Qed.

(** Delivering the events one by one in the order of observation is one of
    the schedules: whatever the threads, some trace is delivered. *)
Lemma delivers_in_observation_order (es : list native_event) :
  delivers thread_of es (map notify es).
Proof.
  unfold delivers.
  induction es as [ | e es IH]; simpl.
  - apply sched_idle. reflexivity.
  - apply sched_call
      with (i := thread_of (ev_window e))
           (rest := delivered_by thread_of es (thread_of (ev_window e))).
    + unfold delivered_by, observed_on. simpl.
      rewrite Nat.eqb_refl. reflexivity.
    + apply (schedule_ext _ _ IH). intro j.
      unfold dequeue, delivered_by, observed_on. simpl.
      destruct (Nat.eqb_spec j (thread_of (ev_window e))) as [-> | N].
      * reflexivity.
      * destruct (Nat.eqb_spec (thread_of (ev_window e)) j) as [E | _];
          [contradiction N; symmetry; exact E | reflexivity].
Qed.

End Threads.

End ProducerFacts.

(** * The delivery of events *)

Import Producer.

(** The trace of the session is one the consumer can see. *)
Lemma session_trace_is_delivered : delivers two_threads session session_trace.
Proof.
  unfold delivers, session_trace.
  apply sched_call with (i := 1%nat) (rest := [notify still_scroll]);
    [reflexivity | ].
  apply sched_call with (i := 0%nat) (rest := [notify drag; notify button_up]);
    [reflexivity | ].
  apply sched_call with (i := 0%nat) (rest := [notify button_up]);
    [reflexivity | ].
  apply sched_call with (i := 1%nat) (rest := []); [reflexivity | ].
  apply sched_call with (i := 0%nat) (rest := []); [reflexivity | ].
  apply sched_idle. intros [ | [ | i]]; reflexivity.
Qed.

(** C7: a call of the mouse scroll function is well typed for any two
    doubles as deltas, and the producer turns a scroll event into that call
    whatever the deltas are, passing them on as they are; the call reaches
    the consumer in every schedule.  Nothing depends on the deltas being
    nonzero, so the same holds at [deltaX = 0.0] and [deltaY = 0.0]. *)
Theorem scroll_is_delivered_whatever_the_deltas :
  forall (c w : address) (dx dy : float),
    well_typed_call raw_input_mouse_scroll
      [Vptr c; Vptr w; Vdouble dx; Vdouble dy] = true
    /\ notify (mkevent c w (MouseScrollEvent dx dy)) =
         mkcall "raw_input_mouse_scroll" [Vptr c; Vptr w; Vdouble dx; Vdouble dy]
    /\ (forall thread_of es trace,
          delivers thread_of es trace ->
          In (mkevent c w (MouseScrollEvent dx dy)) es ->
          In (mkcall "raw_input_mouse_scroll"
                [Vptr c; Vptr w; Vdouble dx; Vdouble dy]) trace).
Proof.
  intros c w dx dy.
  split; [reflexivity | ].
  split; [reflexivity | ].
  intros thread_of es trace Hd Hin.
  apply (ProducerFacts.schedule_keeps_calls _ _ Hd (thread_of w)).
  unfold delivered_by.
  change (mkcall "raw_input_mouse_scroll" [Vptr c; Vptr w; Vdouble dx; Vdouble dy])
    with (notify (mkevent c w (MouseScrollEvent dx dy))).
  apply in_map. unfold observed_on. apply filter_In.
  split; [exact Hin | ]. simpl. apply Nat.eqb_refl.
Qed.

(** C7 at the scroll with both deltas zero of the two-window session. *)
Lemma scroll_is_delivered_at_zero :
  well_typed_call raw_input_mouse_scroll
    [Vptr 1%Z; Vptr 200%Z; Vdouble 0%float; Vdouble 0%float] = true
  /\ delivers two_threads session session_trace
  /\ In still_scroll session
  /\ In (mkcall "raw_input_mouse_scroll"
           [Vptr 1%Z; Vptr 200%Z; Vdouble 0%float; Vdouble 0%float]) session_trace.
Proof.
  destruct (scroll_is_delivered_whatever_the_deltas 1%Z 200%Z 0%float 0%float)
    as (Htyped & _ & Hdelivered).
  assert (Hin : In still_scroll session) by (simpl; tauto).
  split; [exact Htyped | ].
  split; [exact session_trace_is_delivered | ].
  split; [exact Hin | ].
  exact (Hdelivered two_threads session session_trace
           session_trace_is_delivered Hin).
Defined.

(** C9: the calls the consumer sees for a context/window pair are the
    notifications of the events the producer observed for that pair, in
    the order it observed them, whatever their kinds and however the
    threads of other windows are scheduled in between. *)
Theorem calls_arrive_in_observation_order :
  forall thread_of es trace,
    delivers thread_of es trace ->
    forall c w,
      calls_for c w trace = map notify (events_for c w es).
Proof.
  intros thread_of es trace Hd c w.
  rewrite (ProducerFacts.schedule_source_order _ _ Hd c w (thread_of w)).
  - unfold delivered_by. rewrite ProducerFacts.calls_for_notify.
    rewrite ProducerFacts.events_for_observed_on. reflexivity.
  - intros j Hj. unfold delivered_by.
    rewrite ProducerFacts.calls_for_notify.
    rewrite ProducerFacts.events_for_other_thread by exact Hj.
    reflexivity.
Qed.

(** C9 at window 100 of the two-window session: button down, drag and
    button up arrive in that order although thread 1 ran first. *)
Lemma calls_arrive_in_observation_order_witness :
  delivers two_threads session session_trace
  /\ calls_for 1%Z 100%Z session_trace =
       [notify button_down; notify drag; notify button_up].
Proof.
  split; [exact session_trace_is_delivered | ].
  exact (calls_arrive_in_observation_order two_threads session session_trace
           session_trace_is_delivered 1%Z 100%Z).
Defined.

(** * Further properties of the header *)

(** ** Linkage and parameter names *)

(** Every prototype of the header is declared [extern], names each of its
    parameters, and uses no parameter name twice. *)
Theorem prototypes_are_extern_and_named :
  forall d, In d Rust_h ->
    fextern d = true
    /\ (forall p, In p (fparams d) -> pname p <> "")
    /\ NoDup (map pname (fparams d)).
Proof.
  intros d H.
  each_decl H;
    (split; [reflexivity | ]);
    (split; [ intros p Hp; each_decl Hp; discriminate
            | simpl; repeat constructor; simpl; intuition discriminate ]).
Qed.

Lemma prototypes_are_extern_and_named_witness :
  In raw_input_mouse_move Rust_h
  /\ fextern raw_input_mouse_move = true
  /\ NoDup ["context"; "window"; "windowPosX"; "windowPosY";
            "windowWidth"; "windowHeight"].
Proof.
  assert (H : In raw_input_mouse_move Rust_h) by (simpl; tauto).
  destruct (prototypes_are_extern_and_named raw_input_mouse_move H)
    as (Hext & _ & Hnames).
  split; [exact H | ].
  split; [exact Hext | exact Hnames].
Defined.

(** ** The includes *)

Lemma included_headers_eq :
  included_headers Rust_h_lines = ["stdbool.h"; "stdint.h"].
Proof. reflexivity. Qed.

Section StandardHeaders.

(** [provides h n]: the header [h] declares the name [n]. *)
Variable provides : string -> string -> bool.

Hypothesis stdbool_bool : provides "stdbool.h" "bool" = true.
Hypothesis stdint_uint8 : provides "stdint.h" "uint8_t" = true.
Hypothesis stdint_uint16 : provides "stdint.h" "uint16_t" = true.

(** The header is self-contained: every name a prototype takes from
    elsewhere is declared by a header that the text includes, and with
    these names every type of the prototype resolves. *)
Theorem header_includes_what_it_uses :
  forall d, In d Rust_h ->
    (forall n, In n (names_used d) ->
       exists h, In h (included_headers Rust_h_lines) /\ provides h n = true)
    /\ resolve (fret d) <> None
    /\ resolve_all (param_types d) <> None.
Proof.
  intros d H. rewrite included_headers_eq.
  each_decl H;
    (split; [ | split; discriminate ]);
    intros n Hn; each_decl Hn;
    solve [ exists "stdbool.h"; split; [simpl; tauto | assumption]
          | exists "stdint.h"; split; [simpl; tauto | assumption] ].
Qed.

End StandardHeaders.

Lemma header_includes_what_it_uses_witness :
  In raw_input_key_notify_func Rust_h
  /\ names_used raw_input_key_notify_func = ["uint16_t"; "bool"]
  /\ (exists h, In h (included_headers Rust_h_lines)
                /\ standard_provides h "uint16_t" = true).
Proof.
  assert (H : In raw_input_key_notify_func Rust_h) by (simpl; tauto).
  split; [exact H | ].
  split; [reflexivity | ].
  apply (header_includes_what_it_uses standard_provides
           eq_refl eq_refl eq_refl raw_input_key_notify_func H).
  simpl. tauto.
Defined.

(** ** Argument lists *)

Lemma have_types_length (vs : list cvalue) (ts : list ctype) :
  have_types vs ts = true -> List.length vs = List.length ts.
Proof.
  revert ts. induction vs as [ | v vs IH]; intros [ | t ts]; simpl;
    try discriminate; [reflexivity | ].
  rewrite andb_true_iff. intros [_ H]. rewrite (IH ts H). reflexivity.
Qed.

Lemma resolve_all_length (ts rs : list ctype) :
  resolve_all ts = Some rs -> List.length rs = List.length ts.
Proof.
  revert rs. induction ts as [ | t ts IH]; simpl; intros rs H.
  - injection H as <-. reflexivity.
  - destruct (resolve t); [ | discriminate].
    destruct (resolve_all ts) as [rs' | ]; [ | discriminate].
    injection H as <-. simpl. rewrite (IH rs' eq_refl). reflexivity.
Qed.

(** Whatever the prototype, a well-typed call has one argument for each
    parameter. *)
Lemma well_typed_call_arity (d : fundecl) (args : list cvalue) :
  well_typed_call d args = true ->
  List.length args = List.length (fparams d).
Proof.
  unfold well_typed_call.
  destruct (resolve_all (param_types d)) as [ts | ] eqn:E; [ | discriminate].
  intro H. rewrite (have_types_length _ _ H), (resolve_all_length _ _ E).
  unfold param_types. apply length_map.
Qed.

(** Replacing the parameter types of a prototype in a typing hypothesis by
    what they resolve to. *)
Ltac resolve_params H :=
  unfold well_typed_call in H;
  match type of H with
  | context [resolve_all ?ts] =>
      let r := eval vm_compute in (resolve_all ts) in
      change (resolve_all ts) with r in H
  end;
  cbv iota beta in H.

(** Every well-typed call of any of the six functions has as many
    arguments as the prototype has parameters and passes a pointer first:
    no call is without its context.  A call of a finish function passes
    nothing else; a call of a notify function passes a second pointer, the
    window, and after it only scalars. *)
Theorem every_call_passes_its_context :
  forall d args,
    In d Rust_h ->
    well_typed_call d args = true ->
    List.length args = List.length (fparams d)
    /\ exists c rest,
         args = Vptr c :: rest
         /\ (is_finish d = true -> rest = [])
         /\ (is_notify d = true ->
               exists w scalars,
                 rest = Vptr w :: scalars
                 /\ scalars <> []
                 /\ forallb is_scalar scalars = true).
Proof.
  intros d args Hd Ht.
  split; [apply well_typed_call_arity; exact Ht | ].
  each_decl Hd; resolve_params Ht; split_args Ht;
    eexists; eexists;
    (split; [reflexivity | ]);
    (split; [ solve [reflexivity | discriminate] | ]);
    solve [ discriminate
          | intros _; eexists; eexists;
            split; [reflexivity | split; [discriminate | reflexivity]] ].
Qed.

Lemma every_call_passes_its_context_witness :
  well_typed_call raw_input_mouse_button
    [Vptr 0%Z; Vptr 4096%Z; Vint 2%Z; Vbool true] = true
  /\ List.length [Vptr 0%Z; Vptr 4096%Z; Vint 2%Z; Vbool true] = 4%nat.
Proof.
  assert (Hd : In raw_input_mouse_button Rust_h) by (simpl; tauto).
  assert (Ht : well_typed_call raw_input_mouse_button
                 [Vptr 0%Z; Vptr 4096%Z; Vint 2%Z; Vbool true] = true)
    by reflexivity.
  split; [exact Ht | ].
  exact (proj1 (every_call_passes_its_context _ _ Hd Ht)).
Defined.

(** The well-typed calls of the two finish functions are exactly those
    with one argument, a pointer; the prototypes put no condition on the
    address, so the null pointer is accepted like any other. *)
Theorem finish_takes_any_context :
  (forall args,
     well_typed_call raw_input_finish_key_event_context args = true <->
     exists c, args = [Vptr c])
  /\ (forall args,
        well_typed_call raw_input_finish_mouse_event_context args = true <->
        exists c, args = [Vptr c]).
Proof.
  split; intro args; (split;
    [ intro H; resolve_params H; split_args H; eauto
    | intros [c ->]; reflexivity ]).
Qed.
